(** * Insurance estimate breakdown and contractor delegation

    A shallow embedding of the transform pipeline of [Insurance.app.py]:
    column auto-mapping, row normalisation, keyword categorisation,
    rule-based delegation and the aggregate metrics.

    Modelling conventions.
    - A pandas data frame is the list of its rows, in index order.
    - A Python [dict] whose iteration order matters ([category_keywords])
      is an association list; the dicts that are only looked up or
      filled key by key ([rules], [contractors], [payments]) are [gmap]s.
    - Strings are byte strings; [str.lower] and [str.strip] act on the
      ASCII range.
    - Money amounts are exact rationals ([Q]): the rounding of the
      float64 arithmetic of pandas is not part of the model, and
      [None] stands for NaN / a missing cell.
    - Library functions the script calls but does not define
      ([pandas.to_numeric], the [str] rendering of a number,
      [fuzz.ratio]) are parameters, gathered in the classes [Pandas]
      and [Fuzz]. *)

From Stdlib Require Import Ascii String QArith Qround Qabs Lqa.
From stdpp Require Import gmap strings list fin_maps.

(** ** Python string primitives *)

Module PyStr.

(** [c.lower()] on one ASCII character. *)
Definition lower_ascii (c : ascii) : ascii :=
  let n := N_of_ascii c in
  if ((65 <=? n) && (n <=? 90))%N then ascii_of_N (n + 32) else c.

(** [s.lower()]. *)
Fixpoint lower (s : string) : string :=
  match s with
  | EmptyString => EmptyString
  | String c s' => String (lower_ascii c) (lower s')
  end.

(** [s.startswith(p)]. *)
Fixpoint starts_with (p s : string) : bool :=
  match p, s with
  | EmptyString, _ => true
  | String _ _, EmptyString => false
  | String a p', String b s' => if Ascii.eqb a b then starts_with p' s' else false
  end.

(** [kw in s]: [kw] occurs in [s] at some offset. *)
Fixpoint contains (kw s : string) : bool :=
  starts_with kw s ||
  match s with
  | EmptyString => false
  | String _ s' => contains kw s'
  end.

(** Characters removed by [str.strip()]. *)
Definition is_blank (c : ascii) : bool :=
  let n := N_of_ascii c in
  (((9 <=? n) && (n <=? 13)) || ((28 <=? n) && (n <=? 32)))%N.

Fixpoint lstrip (s : string) : string :=
  match s with
  | EmptyString => EmptyString
  | String c s' => if is_blank c then lstrip s' else s
  end.

(** Drop the trailing blanks: a character is kept when something
    non-blank follows it or it is itself non-blank. *)
Fixpoint rstrip (s : string) : string :=
  match s with
  | EmptyString => EmptyString
  | String c s' =>
      match rstrip s' with
      | EmptyString => if is_blank c then EmptyString else String c EmptyString
      | r => String c r
      end
  end.

Definition strip (s : string) : string := rstrip (lstrip s).

(** [s.replace(a, b)] for single characters. *)
Fixpoint replace_char (a b : ascii) (s : string) : string :=
  match s with
  | EmptyString => EmptyString
  | String c s' => String (if Ascii.eqb c a then b else c) (replace_char a b s')
  end.

(** Remove every character satisfying [p] (a replacement by the empty
    string of a one-character pattern or character class). *)
Fixpoint remove_chars (p : ascii -> bool) (s : string) : string :=
  match s with
  | EmptyString => EmptyString
  | String c s' => if p c then remove_chars p s' else String c (remove_chars p s')
  end.

(** [c] occurs in [s]. *)
Fixpoint has_char (p : ascii -> bool) (s : string) : bool :=
  match s with
  | EmptyString => false
  | String c s' => p c || has_char p s'
  end.

End PyStr.

(** ** Configuration tables (lines 21 and 30-37) *)


(** The dict literal, in insertion (hence iteration) order. *)
Definition category_keywords : list (string * list string) :=
  [ ("Roofing", ["shingle"; "ridge"; "flashing"; "felt"; "ice water"]);
    ("Electrical", ["wiring"; "outlet"; "panel"; "fixture"]);
    ("Plumbing", ["pipe"; "vent"; "fixture"; "drain"]);
    ("Drywall/Painting", ["drywall"; "paint"; "texture"; "ceiling"]);
    ("Foundation/Concrete", ["footing"; "pile"; "rebar"; "concrete"]);
    ("Other", []) ].

(** ** Categoriser (lines 97-103) *)

(** [any(kw in desc_lower for kw in kws)]. *)
Definition any_keyword (kws : list string) (desc_lower : string) : bool :=
  existsb (fun kw => PyStr.contains kw desc_lower) kws.

(** The inner [for cat, kws in ...items()] loop with its [break]:
    [current] is the value of the category cell when the loop starts. *)
Fixpoint scan_categories (table : list (string * list string))
    (desc_lower : string) (current : string) : string :=
  match table with
  | [] => current
  | (cat, kws) :: rest =>
      if any_keyword kws desc_lower then cat
      else scan_categories rest desc_lower current
  end.

(** Category given to a row with description [desc]: the column is
    first filled with ['Other'], then the loop may overwrite it. *)
Definition categorize (desc : string) : string :=
  scan_categories category_keywords (PyStr.lower desc) "Other".

(** ** Library interface *)

(** What the script uses of pandas on one cell.
    - [to_numeric s]: [pd.to_numeric] on the text [s] with
      [errors='coerce']; [None] is the NaN it yields on text that is
      not a number.
    - [num_str x]: the text [.astype(str)] gives for the number [x]. *)
Class Pandas := {
  to_numeric : string -> option Q;
  num_str : Q -> string
}.

(** [fuzz.ratio a b], a similarity score between 0 and 100. *)
Class Fuzz := {
  fuzz_ratio : string -> string -> Z
}.

(** ** Data model *)

(** A cell of the total column: text as extracted from the PDF, or a
    number when the column has already been converted. *)
Inductive value :=
  | Str (s : string)
  | Num (x : Q).

(** A row of [all_raw[[desc_col, total_col]]]; [None] is a missing
    cell ([None] from the extractor, NaN from [pd.concat]). *)
Record raw_row := {
  raw_description : option string;
  raw_total : option value
}.

(** A row of [all_tasks] after line 94. *)
Record clean_row := {
  description : string;
  total : Q
}.

(** A row once the [category] column exists (line 97). *)
Record task := {
  task_row :> clean_row;
  category : string
}.

(** A row once the [assigned_to] column exists (line 115). *)
Record line_item := {
  item_task :> task;
  assigned_to : string
}.

(** ** Row normaliser (lines 91-94) *)

(** The character class of the pattern [[\$,]]. *)
Definition is_currency_mark (c : ascii) : bool :=
  Ascii.eqb c "$" || Ascii.eqb c ",".

(** [.str.replace(r'[\$,]', '', regex=True)] on one cell. *)
Definition strip_currency (s : string) : string :=
  PyStr.remove_chars is_currency_mark s.

(** [.astype(str)] on one cell. *)
Definition astype_str `{Pandas} (v : value) : string :=
  match v with
  | Str s => s
  | Num x => num_str x
  end.

(** Line 93 on one cell of the total column. *)
Definition clean_total `{Pandas} (v : value) : option Q :=
  to_numeric (strip_currency (astype_str v)).

(** Line 91: [.dropna()] keeps the rows with no missing cell. *)
Definition dropna (rows : list raw_row) : list (string * value) :=
  omap (fun r =>
          match raw_description r, raw_total r with
          | Some d, Some t => Some (d, t)
          | _, _ => None
          end) rows.

(** Lines 93-94: convert the total column, then
    [.dropna(subset=['total'])]. *)
Definition convert_totals `{Pandas} (rows : list (string * value)) : list clean_row :=
  omap (fun '(d, t) =>
          match clean_total t with
          | Some x => Some {| description := d; total := x |}
          | None => None
          end) rows.

Definition normalize `{Pandas} (rows : list raw_row) : list clean_row :=
  convert_totals (dropna rows).


(** ** Categoriser on the frame (lines 97-103) *)

Definition categorize_rows (rows : list clean_row) : list task :=
  (fun r => {| task_row := r; category := categorize (description r) |}) <$> rows.

(** ** Sidebar configuration (lines 12-27) *)

(** [contractors[name] = percentage / 100.0], one input pair after the
    other. *)
Definition build_contractors (inputs : list (string * Q)) : gmap string Q :=
  fold_left (fun acc '(name, percentage) => <[name := (percentage / 100)%Q]> acc) inputs ∅.

(** [rules[category] = assigned_to], one rule after the other. *)
Definition build_rules (inputs : list (string * string)) : gmap string string :=
  fold_left (fun acc '(cat, who) => <[cat := who]> acc) inputs ∅.

(** ** Delegator (lines 115-119) *)

Definition delegate_row (rules : gmap string string) (t : task) : line_item :=
  {| item_task := t;
     assigned_to :=
       match rules !! category t with
       | Some who => who
       | None => "Unassigned"
       end |}.

Definition delegate (rules : gmap string string) (tasks : list task) : list line_item :=
  delegate_row rules <$> tasks.

(** ** Aggregator (lines 125-145) *)

(** [Series.sum()]: the entries added up from 0. *)
Definition series_sum (xs : list Q) : Q :=
  fold_left Qplus xs 0%Q.

(** [all_tasks[mask]['total'].sum()]. *)
Definition total_where (P : line_item -> Prop) `{!∀ it, Decision (P it)}
    (all_tasks : list line_item) : Q :=
  series_sum ((fun it : line_item => total it) <$> filter P all_tasks).

Definition grand_total (all_tasks : list line_item) : Q :=
  series_sum ((fun it : line_item => total it) <$> all_tasks).

Definition assigned_total (all_tasks : list line_item) : Q :=
  total_where (fun it => assigned_to it ≠ "Unassigned") all_tasks.

Definition unassigned_total (all_tasks : list line_item) : Q :=
  total_where (fun it => assigned_to it = "Unassigned") all_tasks.

(** Line 127: the total of the rows assigned to [contractor]. *)
Definition contractor_total (contractor : string) (all_tasks : list line_item) : Q :=
  total_where (fun it => assigned_to it = contractor) all_tasks.

(** Lines 125-129: the loop over [contractors.items()].  The keys of
    a dict are distinct, so the order of the rounds does not show in
    the resulting dict. *)
Definition payments (contractors : gmap string Q) (all_tasks : list line_item)
    : gmap string Q :=
  map_fold (fun contractor pct acc =>
              <[contractor := (contractor_total contractor all_tasks * pct)%Q]> acc)
           ∅ contractors.

(** Python's [a / b] on integers; [None] is [ZeroDivisionError]. *)
Definition py_truediv (a b : Z) : option Q :=
  if decide (b = 0%Z) then None else Some (inject_Z a / inject_Z b)%Q.

(** The integer printed by the format [.0f]: the nearest one, the even
    one of the two when [x] is half-way. *)
Definition round_half_even (x : Q) : Z :=
  let f := Qfloor x in
  match (x - inject_Z f ?= 1 # 2)%Q with
  | Lt => f
  | Gt => (f + 1)%Z
  | Eq => if Z.even f then f else (f + 1)%Z
  end.

(** Number of rows whose category is not ['Other']. *)
Definition categorized_count (all_tasks : list line_item) : nat :=
  length (filter (fun it : line_item => category it ≠ "Other") all_tasks).

(** Line 145: the number shown by the "Categorized %" metric, [None]
    when evaluating the expression raises. *)
Definition categorized_percentage (all_tasks : list line_item) : option Z :=
  match py_truediv (Z.of_nat (categorized_count all_tasks)) (Z.of_nat (length all_tasks)) with
  | Some ratio => Some (round_half_even (ratio * 100))
  | None => None
  end.

(** ** Column resolver (lines 53 and 61-78) *)

(** Line 53: the clean-up of a header cell. *)
Definition clean_column (name : string) : string :=
  PyStr.remove_chars (Ascii.eqb ".")
    (PyStr.replace_char " " "_" (PyStr.lower (PyStr.strip name))).

Record column_map := {
  desc_col : option string;
  total_col : option string;
  qty_col : option string;
  unit_col : option string
}.

Definition is_description `{Fuzz} (col : string) : bool :=
  (70 <? fuzz_ratio col "description")%Z || PyStr.contains "desc" col.

Definition is_total `{Fuzz} (col : string) : bool :=
  (70 <? fuzz_ratio col "total")%Z || PyStr.contains "price" col || PyStr.contains "rcv" col.

Definition is_quantity `{Fuzz} (col : string) : bool :=
  (70 <? fuzz_ratio col "quantity")%Z || PyStr.contains "qty" col.

Definition is_unit `{Fuzz} (col : string) : bool :=
  (70 <? fuzz_ratio col "unit")%Z.

(** One round of the loop of lines 66-78. *)
Definition map_column `{Fuzz} (m : column_map) (col : string) : column_map :=
  {| desc_col := if is_description col then Some col else desc_col m;
     total_col := if is_total col then Some col else total_col m;
     qty_col := if is_quantity col then Some col else qty_col m;
     unit_col := if is_unit col then Some col else unit_col m |}.

Definition no_columns : column_map :=
  {| desc_col := None; total_col := None; qty_col := None; unit_col := None |}.

Definition auto_map `{Fuzz} (columns : list string) : column_map :=
  fold_left map_column columns no_columns.

(** ** The frame the metrics are computed on (lines 91-119) *)

Definition pipeline `{Pandas} (rules : gmap string string) (rows : list raw_row)
    : list line_item :=
  delegate rules (categorize_rows (normalize rows)).

(** ** A reference instance of the pandas interface

    Plain decimal numerals: an optional sign, digits, and an optional
    fractional part.  This is the fragment of the numerals pandas
    reads that the examples below need; other spellings pandas accepts
    (exponents, [inf], surrounding blanks) are outside it. *)

Module Decimal.

Definition digit_of (c : ascii) : option Z :=
  let n := N_of_ascii c in
  if ((48 <=? n) && (n <=? 57))%N then Some (Z.of_N (n - 48)) else None.

(** Read a run of digits: the number read so far, how many digits
    were read, and the text left. *)
Fixpoint read_digits (s : string) (acc : Z) (n : nat) : Z * nat * string :=
  match s with
  | EmptyString => (acc, n, s)
  | String c s' =>
      match digit_of c with
      | Some d => read_digits s' (10 * acc + d)%Z (S n)
      | None => (acc, n, s)
      end
  end.

Definition parse_unsigned (s : string) : option Q :=
  let '(int_part, ni, rest) := read_digits s 0%Z 0 in
  match rest with
  | EmptyString => if ni is O then None else Some (inject_Z int_part)
  | String "." frac =>
      let '(mantissa, nf, rest') := read_digits frac int_part 0 in
      match rest' with
      | EmptyString =>
          if (ni + nf)%nat is O then None
          else Some (Qred (mantissa # Z.to_pos (10 ^ Z.of_nat nf)))
      | _ => None
      end
  | _ => None
  end.

Definition parse (s : string) : option Q :=
  match s with
  | String "-" s' => Qopp <$> parse_unsigned s'
  | String "+" s' => parse_unsigned s'
  | _ => parse_unsigned s
  end.

Definition digit_char (d : Z) : ascii := ascii_of_N (48 + Z.to_N d).

(** The last [k] decimal digits of [n], most significant first. *)
Fixpoint digits_fixed (k : nat) (n : Z) (tail : string) : string :=
  match k with
  | O => tail
  | S k' => digits_fixed k' (n / 10)%Z (String (digit_char (n mod 10)) tail)
  end.

(** The decimal digits of [n >= 0], with [fuel] bounding their number. *)
Fixpoint digits_nat (fuel : nat) (n : Z) (tail : string) : string :=
  match fuel with
  | O => tail
  | S fuel' =>
      let tail' := String (digit_char (n mod 10)) tail in
      if (n <? 10)%Z then tail' else digits_nat fuel' (n / 10)%Z tail'
  end.

(** The least [k >= 1], at most [fuel], with [den] dividing [10^k]. *)
Fixpoint scale_for (fuel : nat) (k : nat) (den : Z) : nat :=
  match fuel with
  | O => k
  | S fuel' => if (10 ^ Z.of_nat k mod den =? 0)%Z then k else scale_for fuel' (S k) den
  end.

(** The rendering of a decimal fraction: integer part, a point, and
    at least one fractional digit ([100.0], [1234.5]). *)
Definition render (x : Q) : string :=
  let x := Qred x in
  let den := Z.pos (Qden x) in
  let k := scale_for 40 1 den in
  let scaled := (Z.abs (Qnum x) * 10 ^ Z.of_nat k / den)%Z in
  let int_part := (scaled / 10 ^ Z.of_nat k)%Z in
  let body :=
    digits_nat (S (Z.to_nat (Z.log2 int_part))) int_part
      (String "." (digits_fixed k (scaled mod 10 ^ Z.of_nat k) EmptyString)) in
  if (Qnum x <? 0)%Z then String "-" body else body.

End Decimal.

#[global] Instance decimal_pandas : Pandas :=
  {| to_numeric := Decimal.parse; num_str := Decimal.render |}.

(** A similarity score that never passes the threshold: only the
    synonym tokens decide. *)
Definition no_fuzz : Fuzz := {| fuzz_ratio := fun _ _ => 0%Z |}.

(** ** Table extraction (lines 44-58 and 148-149) *)







(** ** Manual column mapping (lines 80-89 and 146-147) *)

(** The truth value of a variable holding [None] or a string. *)
Definition truthy (c : option string) : bool :=
  match c with
  | Some (String _ _) => true
  | _ => false
  end.

(** The keys of the dict comprehension of line 83: every column once,
    in order of first occurrence; [seen] holds the keys set so far. *)
Fixpoint dict_keys (seen columns : list string) : list string :=
  match columns with
  | [] => []
  | col :: rest =>
      if decide (col ∈ seen) then dict_keys seen rest
      else col :: dict_keys (col :: seen) rest
  end.

(** [st.selectbox(label, options, index)]: the option the user has
    picked, and while the widget is untouched the option at [index],
    or nothing when [index] is [None]. *)
Definition selectbox (options : list string) (index : option nat)
    (picked : option string) : option string :=
  match picked with
  | Some choice => Some choice
  | None =>
      match index with
      | Some i => options !! i
      | None => None
      end
  end.

(** How a run leaves lines 61-89: with the two columns the report is
    built on, with the request to run the script again ([st.rerun()],
    which stops the run), or with the error of line 147. *)
Inductive resolution :=
  | Resolved (desc total : string)
  | Rerun
  | MapError.

(** Lines 80-89 after the auto-mapping [m]; [picked_desc] and
    [picked_total] are what the user has picked in the two widgets. *)
Definition finish_mapping (columns : list string) (m : column_map)
    (picked_desc picked_total : option string) : resolution :=
  if negb (truthy (desc_col m)) || negb (truthy (total_col m)) then
    let options := dict_keys [] columns in
    let d := selectbox options (if truthy (desc_col m) then Some 0 else None) picked_desc in
    let t := selectbox options (if truthy (total_col m) then Some 0 else None) picked_total in
    if truthy d && truthy t then Rerun else MapError
  else
    match desc_col m, total_col m with
    | Some d, Some t => Resolved d t
    | _, _ => MapError
    end.

Definition resolve_columns `{Fuzz} (columns : list string)
    (picked_desc picked_total : option string) : resolution :=
  finish_mapping columns (auto_map columns) picked_desc picked_total.

(** ** Vocabulary of the statements *)

(** [kw] occurs in [s]: [s] is some text, then [kw], then some text. *)
Definition is_substring (kw s : string) : Prop :=
  ∃ before after, s = before +:+ kw +:+ after.

(** Some keyword of [kws] occurs in [d]. *)
Definition keyword_occurs (kws : list string) (d : string) : Prop :=
  ∃ kw, kw ∈ kws ∧ is_substring kw d.

(** Lines 93-94 seen on the total column alone. *)
Definition normalize_totals `{Pandas} (col : list value) : list Q :=
  omap clean_total col.

(** A raw row with both cells present and the total as text. *)
Definition text_row (d t : string) : raw_row :=
  {| raw_description := Some d; raw_total := Some (Str t) |}.

(** The cell is missing, or holds the empty text. *)
Definition empty_or_missing_text (c : option string) : Prop :=
  c = None ∨ c = Some EmptyString.

Definition empty_or_missing_value (c : option value) : Prop :=
  c = None ∨ c = Some (Str EmptyString).


(** A line item given by its four fields. *)
Definition item (d : string) (x : Q) (cat who : string) : line_item :=
  {| item_task := {| task_row := {| description := d; total := x |}; category := cat |};
     assigned_to := who |}.

(** The share of the rows with a category other than "Other", in
    percent, as a rational. *)
Definition exact_percentage (items : list line_item) : Q :=
  (inject_Z (Z.of_nat (categorized_count items)) / inject_Z (Z.of_nat (length items)) * 100)%Q.


(** The loop of lines 66-78 seen on one role. *)
Definition pick (p : string → bool) (acc : option string) (col : string) : option string :=
  if p col then Some col else acc.

(** An upper-case ASCII letter. *)
Definition is_upper (c : ascii) : bool :=
  let n := N_of_ascii c in ((65 <=? n) && (n <=? 90))%N.

(** What the normaliser makes of one raw row: the line item it
    becomes, or nothing when the row is dropped. *)
Definition normalize_row `{Pandas} (row : raw_row) : option clean_row :=
  match raw_description row, raw_total row with
  | Some d, Some t =>
      match clean_total t with
      | Some x => Some {| description := d; total := x |}
      | None => None
      end
  | _, _ => None
  end.




(** * Properties *)

(** ** Strings *)

Section StringFacts.

Implicit Types (s p kw : string) (c : ascii).

Lemma append_cons c p s : String c p +:+ s = String c (p +:+ s).
Proof. reflexivity. Qed.

Lemma starts_with_spec p s :
  PyStr.starts_with p s = true ↔ ∃ rest, s = p +:+ rest.
Proof.
  revert s; induction p as [|a p IH]; intros s; simpl.
  - split; [intros _; by exists s | done].
  - destruct s as [|b s]; simpl.
    + split; [done | intros [rest Hrest]; by rewrite append_cons in Hrest].
    + destruct (Ascii.eqb a b) eqn:Hab.
      * apply Ascii.eqb_eq in Hab as ->. rewrite IH.
        split; intros [rest Hrest]; exists rest;
          rewrite append_cons in *; congruence.
      * split; [done|]. intros [rest Hrest]. rewrite append_cons in Hrest.
        injection Hrest as -> _. by rewrite Ascii.eqb_refl in Hab.
Qed.

Lemma contains_spec kw s :
  PyStr.contains kw s = true ↔ is_substring kw s.
Proof.
  induction s as [|c s IH]; simpl.
  - rewrite orb_false_r, starts_with_spec. split.
    + intros [rest Hrest]. by exists EmptyString, rest.
    + intros ([|??] & after & Hs);
        [by exists after | by rewrite append_cons in Hs].
  - rewrite orb_true_iff, starts_with_spec, IH. split.
    + intros [[rest Hrest] | (before & after & ->)].
      * by exists EmptyString, rest.
      * by exists (String c before), after.
    + intros ([|b before] & after & Hs).
      * left. by exists after.
      * right. rewrite append_cons in Hs. injection Hs as -> ->.
        by exists before, after.
Qed.

Lemma lower_ascii_idemp c :
  PyStr.lower_ascii (PyStr.lower_ascii c) = PyStr.lower_ascii c.
Proof. by destruct c as [[] [] [] [] [] [] [] []]. Qed.

Lemma lower_idemp s : PyStr.lower (PyStr.lower s) = PyStr.lower s.
Proof.
  induction s as [|c s IH]; simpl; [done|].
  by rewrite lower_ascii_idemp, IH.
Qed.

(** Removing characters leaves a text without them as it is. *)
Lemma remove_chars_id f s :
  PyStr.has_char f s = false → PyStr.remove_chars f s = s.
Proof.
  induction s as [|c s IH]; simpl; [done|].
  intros [-> Hs]%orb_false_iff. by rewrite IH.
Qed.

End StringFacts.

(** ** Categoriser *)

Lemma any_keyword_spec kws d :
  any_keyword kws d = true ↔ keyword_occurs kws d.
Proof.
  unfold any_keyword, keyword_occurs. rewrite existsb_exists.
  split; intros (kw & Hin & Hkw); exists kw.
  - by rewrite list_elem_of_In, <-contains_spec.
  - by rewrite <-list_elem_of_In, contains_spec.
Qed.

Lemma any_keyword_false kws d :
  any_keyword kws d = false ↔ ¬ keyword_occurs kws d.
Proof. rewrite <-any_keyword_spec. by destruct (any_keyword kws d). Qed.


Lemma scan_categories_none table d current :
  Forall (fun entry => ¬ keyword_occurs entry.2 d) table →
  scan_categories table d current = current.
Proof.
  induction 1 as [|[cat kws] table Hno _ IH]; simpl; [done|].
  apply any_keyword_false in Hno. simpl in Hno. by rewrite Hno.
Qed.




(** ** Row normaliser *)

Section Normaliser.

Context `{Pandas}.

Lemma normalize_app rows1 rows2 :
  normalize (rows1 ++ rows2) = normalize rows1 ++ normalize rows2.
Proof. unfold normalize, convert_totals, dropna. by rewrite !omap_app. Qed.

Lemma normalize_cons row rows :
  normalize (row :: rows) = normalize [row] ++ normalize rows.
Proof. apply (normalize_app [row]). Qed.

Lemma normalize_text_row d t :
  normalize [text_row d t] =
    match to_numeric (strip_currency t) with
    | Some x => [{| description := d; total := x |}]
    | None => []
    end.
Proof.
  unfold normalize, convert_totals, dropna, clean_total; simpl.
  by destruct (to_numeric (strip_currency t)).
Qed.

Lemma normalize_missing row :
  raw_description row = None ∨ raw_total row = None → normalize [row] = [].
Proof.
  destruct row as [[d|] [t|]]; simpl; intros [?|?]; by simplify_eq.
Qed.

Lemma convert_totals_column rows :
  (fun r => total r) <$> convert_totals rows = normalize_totals rows.*2.
Proof.
  unfold normalize_totals.
  induction rows as [|[d t] rows IH]; [done|].
  rewrite fmap_cons. simpl.
  destruct (clean_total t); [rewrite fmap_cons|]; by rewrite IH.
Qed.

Lemma strip_currency_chars t :
  String.list_ascii_of_string (strip_currency t) =
    filter (fun c => c ≠ "$"%char ∧ c ≠ ","%char) (String.list_ascii_of_string t).
Proof.
  induction t as [|c t IH]; simpl; [done|].
  unfold strip_currency in *; simpl. unfold is_currency_mark at 1.
  destruct (Ascii.eqb_spec c "$") as [->|Hd]; simpl.
  { rewrite filter_cons_False; [done | by intros [??]]. }
  destruct (Ascii.eqb_spec c ",") as [->|Hc]; simpl.
  { rewrite filter_cons_False; [done | by intros [??]]. }
  rewrite filter_cons_True by done. by rewrite IH.
Qed.

End Normaliser.

(** C3. The total cell of a row is stripped of every "$" and ","
    (and of nothing else) and handed to the numeric parser.  The row
    is kept, with the parsed number as its total, exactly when the
    parser accepts the stripped text; otherwise the row yields no line
    item at all (no zero total is made up) and the rows around it are
    processed as usual.  With decimal numerals, "$1,234.50" gives
    1234.50 and a total "abc" drops its row. *)
Theorem normalize_parses_total `{Pandas} (d t : string) (rows1 rows2 : list raw_row) :
  String.list_ascii_of_string (strip_currency t) =
    filter (fun c => c ≠ "$"%char ∧ c ≠ ","%char) (String.list_ascii_of_string t)
  ∧ normalize [text_row d t] =
      match to_numeric (strip_currency t) with
      | Some x => [{| description := d; total := x |}]
      | None => []
      end
  ∧ normalize (rows1 ++ text_row d t :: rows2) =
      normalize rows1 ++ normalize [text_row d t] ++ normalize rows2
  ∧ strip_currency "$1,234.50" = "1234.50"
  ∧ (∃ x, @normalize decimal_pandas [text_row d "$1,234.50"] =
            [{| description := d; total := x |}] ∧ (x == 1234.50)%Q)
  ∧ @normalize decimal_pandas (rows1 ++ text_row d "abc" :: rows2) =
      @normalize decimal_pandas (rows1 ++ rows2).
Proof.
  split; [apply strip_currency_chars|].
  split; [apply normalize_text_row|].
  split; [by rewrite normalize_app, normalize_cons|].
  split; [done|].
  split.
  - exists (2469 # 2)%Q. by rewrite normalize_text_row.
  - by rewrite !normalize_app, normalize_cons, normalize_text_row.
Qed.

(** C4, as stated, fails: a row whose description cell is the empty
    text and whose total is a number is kept. *)
Lemma empty_description_is_kept :
  ¬ ∀ row : raw_row,
      empty_or_missing_text (raw_description row) ∨
      empty_or_missing_value (raw_total row) →
      @normalize decimal_pandas [row] = [].
Proof.
  intros Hdrop.
  specialize (Hdrop (text_row EmptyString "100")). simpl in Hdrop.
  assert (@normalize decimal_pandas [text_row EmptyString "100"] = []) as Hnil
    by (apply Hdrop; left; by right).
  by vm_compute in Hnil.
Qed.

(** C4, amended.  Given that the numeric parser rejects the empty text
    (pandas turns it into NaN), a row is dropped whenever its
    description cell is missing, its total cell is missing, or its
    total cell is the empty text: such a row adds no line item to the
    frame.  An empty description alone does not drop the row: with a
    total the parser accepts, the row is kept. *)
Theorem normalize_drops_missing `{Pandas} (row : raw_row) (rows1 rows2 : list raw_row) :
  to_numeric EmptyString = None →
  raw_description row = None ∨ empty_or_missing_value (raw_total row) →
  normalize [row] = []
  ∧ normalize (rows1 ++ row :: rows2) = normalize (rows1 ++ rows2)
  ∧ (∀ t x, to_numeric (strip_currency t) = Some x →
       normalize [text_row EmptyString t] = [{| description := EmptyString; total := x |}]).
Proof.
  intros Hempty Hrow.
  assert (normalize [row] = []) as Hnil.
  { destruct Hrow as [Hd | [Ht | Ht]].
    - apply normalize_missing. by left.
    - apply normalize_missing. by right.
    - destruct row as [[d|] t]; simpl in Ht; subst t.
      + change (normalize [text_row d EmptyString] = []).
        rewrite normalize_text_row.
        change (strip_currency EmptyString) with EmptyString. by rewrite Hempty.
      + apply normalize_missing. by left. }
  split; [done|]. split.
  - by rewrite !normalize_app, normalize_cons, Hnil.
  - intros t x Ht. by rewrite normalize_text_row, Ht.
Qed.

(** A row whose total cell is empty, under decimal numerals. *)
Lemma normalize_drops_missing_witness :
  @normalize decimal_pandas [text_row "Remove debris" EmptyString] = [].
Proof.
  refine (proj1 (@normalize_drops_missing decimal_pandas
                   (text_row "Remove debris" EmptyString) [] [] eq_refl _)).
  right. by right.
Defined.



(** ** Delegator *)

(** C6. The delegator gives a row the contractor its category is
    mapped to by the rules, and "Unassigned" when the rules hold no
    entry for the category; the row is otherwise carried over as it
    is, so the frame keeps its rows, in order, with their description,
    total and category.  With the rule Roofing -> "Contractor 1", a
    roofing item goes to "Contractor 1" and a plumbing item stays
    "Unassigned". *)
Theorem delegate_by_rule (rules : gmap string string) (t : task) (tasks : list task) :
  (∀ who, rules !! category t = Some who → assigned_to (delegate_row rules t) = who)
  ∧ (rules !! category t = None → assigned_to (delegate_row rules t) = "Unassigned")
  ∧ item_task (delegate_row rules t) = t
  ∧ item_task <$> delegate rules tasks = tasks
  ∧ (fun it => assigned_to it) <$>
      delegate (build_rules [("Roofing", "Contractor 1")])
        (categorize_rows
           [ {| description := "Install asphalt shingle roof"; total := 500 |};
             {| description := "Replace drain pipe"; total := 100 |} ])
    = ["Contractor 1"; "Unassigned"].
Proof.
  split; [|split; [|split; [|split]]].
  - intros who Hwho. unfold delegate_row; simpl. by rewrite Hwho.
  - intros Hnone. unfold delegate_row; simpl. by rewrite Hnone.
  - done.
  - unfold delegate. rewrite <-list_fmap_compose.
    induction tasks as [|t' tasks IH]; [done|].
    rewrite fmap_cons. by rewrite IH.
  - by vm_compute.
Qed.

(** A roofing task under the rule Roofing -> "Contractor 1". *)
Lemma delegate_by_rule_witness :
  assigned_to
    (delegate_row (build_rules [("Roofing", "Contractor 1")])
       {| task_row := {| description := "Install asphalt shingle roof"; total := 500 |};
          category := "Roofing" |})
  = "Contractor 1".
Proof.
  refine (proj1 (delegate_by_rule _ _ []) "Contractor 1" _).
  by vm_compute.
Defined.

(** ** Aggregator *)

Section Sums.

Local Open Scope Q_scope.






Lemma total_where_none (P : line_item → Prop) `{!∀ it, Decision (P it)} items :
  (∀ it, it ∈ items → ¬ P it) → total_where P items = 0.
Proof.
  intros Hnone. unfold total_where.
  replace (filter P items) with (@nil line_item); [done|].
  symmetry. induction items as [|it items IH]; [done|].
  rewrite filter_cons_False by (apply Hnone; left).
  apply IH. intros it' Hin. apply Hnone. by right.
Qed.

End Sums.



Lemma payments_lookup (contractors : gmap string Q) (items : list line_item) (name : string) :
  payments contractors items !! name =
    (fun pct => (contractor_total name items * pct)%Q) <$> contractors !! name.
Proof.
  unfold payments. revert name.
  apply (map_fold_weak_ind
           (fun (acc : gmap string Q) (m : gmap string Q) =>
              ∀ name, acc !! name =
                (fun pct => (contractor_total name items * pct)%Q) <$> m !! name)).
  - intros name. by rewrite !lookup_empty.
  - intros c pct m acc Hfresh IH name.
    destruct (decide (c = name)) as [->|Hne].
    + by rewrite !lookup_insert_eq.
    + by rewrite !lookup_insert_ne.
Qed.



(** ** Categorised percentage *)

Lemma round_half_even_nearest (x : Q) :
  (Qabs (inject_Z (round_half_even x) - x) <= 1 # 2)%Q.
Proof.
  unfold round_half_even.
  pose proof (Qfloor_le x) as Hlo.
  pose proof (Qlt_floor x) as Hhi.
  rewrite inject_Z_plus in Hhi. change (inject_Z 1) with 1%Q in Hhi.
  apply Qabs_Qle_condition.
  destruct (Qcompare_spec (x - inject_Z (Qfloor x)) (1 # 2)) as [Heq|Hlt|Hgt].
  - destruct (Z.even (Qfloor x)).
    + split; lra.
    + rewrite inject_Z_plus. change (inject_Z 1) with 1%Q. split; lra.
  - split; lra.
  - rewrite inject_Z_plus. change (inject_Z 1) with 1%Q. split; lra.
Qed.

(** C1, what the code does.  On the empty frame the expression of the
    "Categorized %" metric divides by zero and raises: no value is
    shown.  The empty frame is reachable: a table all of whose totals
    are unreadable leaves no row.  On a frame with at least one row
    the metric shows an integer nearest to 100 times the number of
    rows whose category is not "Other" over the number of rows; one
    categorised row out of two shows 50. *)
Theorem categorized_percentage_faults_on_empty (it : line_item) (items : list line_item) :
  categorized_percentage [] = None
  ∧ @pipeline decimal_pandas ∅ [text_row "Remove debris" "abc"; text_row "Haul away" "n/a"] = []
  ∧ (∃ shown, categorized_percentage (it :: items) = Some shown
              ∧ (Qabs (inject_Z shown - exact_percentage (it :: items)) <= 1 # 2)%Q)
  ∧ categorized_percentage
      [item "Roof shingle replacement" 500 "Roofing" "A";
       item "Misc labor" 100 "Other" "Unassigned"] = Some 50%Z.
Proof.
  split; [done|]. split; [done|]. split; [|done].
  unfold categorized_percentage, py_truediv.
  rewrite decide_False by (simpl; lia).
  eexists. split; [done|]. apply round_half_even_nearest.
Qed.

(** ** Column resolver *)

Section Resolver.

Context `{Fuzz}.

Lemma auto_map_fields columns m :
  desc_col (fold_left map_column columns m) =
    fold_left (pick is_description) columns (desc_col m)
  ∧ total_col (fold_left map_column columns m) =
      fold_left (pick is_total) columns (total_col m)
  ∧ qty_col (fold_left map_column columns m) =
      fold_left (pick is_quantity) columns (qty_col m)
  ∧ unit_col (fold_left map_column columns m) =
      fold_left (pick is_unit) columns (unit_col m).
Proof.
  revert m. induction columns as [|col columns IH]; intros m; [done|].
  simpl. destruct (IH (map_column m col)) as (-> & -> & -> & ->). done.
Qed.

Lemma auto_map_picks columns :
  desc_col (auto_map columns) = fold_left (pick is_description) columns None
  ∧ total_col (auto_map columns) = fold_left (pick is_total) columns None
  ∧ qty_col (auto_map columns) = fold_left (pick is_quantity) columns None
  ∧ unit_col (auto_map columns) = fold_left (pick is_unit) columns None.
Proof. apply (auto_map_fields columns no_columns). Qed.

Lemma pick_none_after p after start :
  Forall (fun c' => p c' = false) after →
  fold_left (pick p) after start = start.
Proof.
  intros Hafter. revert start.
  induction Hafter as [|c after Hc _ IH]; intros start; [done|].
  simpl. unfold pick at 2. by rewrite Hc.
Qed.


Lemma pick_resolved p columns c :
  c ∈ columns → p c = true → ∃ c', fold_left (pick p) columns None = Some c' ∧ p c' = true.
Proof.
  intros Hin Hc.
  induction columns as [|col columns IH] using rev_ind; [by apply elem_of_nil in Hin|].
  rewrite fold_left_app. simpl. unfold pick at 1.
  destruct (p col) eqn:Hcol; [by exists col|].
  apply elem_of_app in Hin as [Hin | Hin%list_elem_of_singleton]; [by apply IH|].
  congruence.
Qed.

End Resolver.




(** ** The whole run on a sample document

    Headers Description / Total, the rows ("Roof shingle replacement",
    "$500.00") and ("Misc labor", "$100"), one contractor "A" at 85
    percent, and the rule Roofing -> "A". *)

Example sample_document :
  let items :=
    @pipeline decimal_pandas (build_rules [("Roofing", "A")])
      [text_row "Roof shingle replacement" "$500.00"; text_row "Misc labor" "$100"] in
  (grand_total items == 600)%Q
  ∧ (assigned_total items == 500)%Q
  ∧ (unassigned_total items == 100)%Q
  ∧ categorized_percentage items = Some 50%Z
  ∧ ∃ paid, payments (build_contractors [("A", 85%Q)]) items !! "A" = Some paid
            ∧ (paid == 425)%Q.
Proof.
  split_and!; try by vm_compute.
  eexists. split; [by vm_compute | by vm_compute].
Qed.

(** ** Table extraction *)





(** ** Manual column mapping *)

Lemma truthy_spec (c : option string) :
  truthy c = true ↔ ∃ s, c = Some s ∧ s ≠ EmptyString.
Proof.
  destruct c as [[|a s]|]; simpl.
  - split; [done | by intros (s & [= <-] & Hs)].
  - split; [by exists (String a s) | done].
  - split; [done | by intros (s & ? & _)].
Qed.

Lemma dict_keys_elem (seen columns : list string) (c : string) :
  c ∈ dict_keys seen columns ↔ c ∈ columns ∧ c ∉ seen.
Proof.
  revert seen. induction columns as [|col rest IH]; intros seen; simpl.
  - rewrite elem_of_nil. tauto.
  - destruct (decide (col ∈ seen)) as [Hseen|Hnew].
    + rewrite IH, elem_of_cons. split; [tauto|].
      intros [[->|Hin] Hc]; [done | tauto].
    + rewrite !elem_of_cons, IH, not_elem_of_cons.
      destruct (decide (c = col)) as [->|Hne]; tauto.
Qed.

Lemma dict_keys_NoDup (seen columns : list string) :
  NoDup (dict_keys seen columns).
Proof.
  revert seen. induction columns as [|col rest IH]; intros seen; simpl.
  - constructor.
  - destruct (decide (col ∈ seen)); [apply IH|].
    constructor; [|apply IH].
    rewrite dict_keys_elem, not_elem_of_cons. tauto.
Qed.

Lemma finish_mapping_resolved columns m picked_desc picked_total d t :
  finish_mapping columns m picked_desc picked_total = Resolved d t ↔
    desc_col m = Some d ∧ total_col m = Some t ∧ d ≠ EmptyString ∧ t ≠ EmptyString.
Proof.
  unfold finish_mapping.
  destruct (desc_col m) as [[|a d']|], (total_col m) as [[|b t']|]; simpl;
    try (split; [by repeat case_match | by intros ([= <-] & [= <-] & ? & ?)]);
    try (split; [by repeat case_match | by intros (? & ? & ? & ?)]).
  split; [by intros [= <- <-] | by intros ([= <-] & [= <-] & _)].
Qed.

(** X2. The report is built in a run only on columns found by the
    auto-mapping: the run leaves the column stage with a description
    and a total column exactly when the auto-mapping selected a
    non-empty name for both, and these are the columns used.  When the
    auto-mapping misses one of the two, nothing picked in the manual
    widgets leads to the report in that run: with both widgets set the
    script asks for a rerun, otherwise it shows the mapping error. *)
Theorem report_needs_auto_mapping `{Fuzz} (columns : list string)
    (picked_desc picked_total : option string) :
  (∀ d t, resolve_columns columns picked_desc picked_total = Resolved d t ↔
          desc_col (auto_map columns) = Some d ∧ total_col (auto_map columns) = Some t
          ∧ d ≠ EmptyString ∧ t ≠ EmptyString)
  ∧ (truthy (desc_col (auto_map columns)) && truthy (total_col (auto_map columns)) = false →
     (resolve_columns columns picked_desc picked_total = Rerun
      ∨ resolve_columns columns picked_desc picked_total = MapError)
     ∧ (truthy picked_desc && truthy picked_total = true →
        resolve_columns columns picked_desc picked_total = Rerun)).
Proof.
  split; [intros d t; apply finish_mapping_resolved|].
  unfold resolve_columns, finish_mapping. intros Hmiss.
  assert (negb (truthy (desc_col (auto_map columns)))
          || negb (truthy (total_col (auto_map columns))) = true) as ->.
  { destruct (truthy (desc_col (auto_map columns))),
      (truthy (total_col (auto_map columns))); done. }
  cbv zeta. split.
  - case_match; [by left | by right].
  - intros [Hd Ht]%andb_true_iff.
    destruct picked_desc as [d|]; [|done]. destruct picked_total as [t|]; [|done].
    unfold selectbox. by rewrite Hd, Ht.
Qed.

(** X3. The options of the manual widgets are the columns of the
    frame, each once, in order of first occurrence.  When the
    auto-mapping found a description column but no total column, the
    description widget does not preselect the column found: untouched,
    it yields the first column of the frame, while the total widget
    yields nothing, and the run ends with the mapping error. *)
Theorem manual_widgets_default_to_first_column `{Fuzz} (columns : list string) :
  truthy (desc_col (auto_map columns)) = true →
  truthy (total_col (auto_map columns)) = false →
  NoDup (dict_keys [] columns)
  ∧ (∀ c, c ∈ dict_keys [] columns ↔ c ∈ columns)
  ∧ selectbox (dict_keys [] columns) (Some 0) None = head columns
  ∧ selectbox (dict_keys [] columns) None None = None
  ∧ resolve_columns columns None None = MapError.
Proof.
  intros Hd Ht. split_and!.
  - apply dict_keys_NoDup.
  - intros c. rewrite dict_keys_elem, elem_of_nil. tauto.
  - by destruct columns as [|col rest].
  - done.
  - unfold resolve_columns, finish_mapping. rewrite Hd, Ht. simpl.
    by rewrite andb_false_r.
Qed.

(** The columns "item", "description" and "amount": the second is
    found for the description, none for the total. *)
Lemma manual_widgets_default_to_first_column_witness :
  selectbox (dict_keys [] ["item"; "description"; "amount"]) (Some 0) None = Some "item"
  ∧ @resolve_columns no_fuzz ["item"; "description"; "amount"] None None = MapError.
Proof.
  pose proof (@manual_widgets_default_to_first_column no_fuzz
                ["item"; "description"; "amount"] eq_refl eq_refl)
    as (_ & _ & Hsel & _ & Herr).
  exact (conj Hsel Herr).
Defined.

(** ** Column resolver on a longer column list *)

Section ResolverMore.

Context `{Fuzz}.

Lemma pick_from p columns start :
  fold_left (pick p) columns start =
    match fold_left (pick p) columns None with
    | Some c => Some c
    | None => start
    end.
Proof.
  revert start. induction columns as [|col columns IH]; intros start; [done|].
  simpl. rewrite (IH (pick p start col)), (IH (pick p None col)).
  destruct (fold_left (pick p) columns None); [done|].
  unfold pick. by destruct (p col).
Qed.

Lemma pick_app p columns1 columns2 :
  fold_left (pick p) (columns1 ++ columns2) None =
    match fold_left (pick p) columns2 None with
    | Some c => Some c
    | None => fold_left (pick p) columns1 None
    end.
Proof. by rewrite fold_left_app, pick_from. Qed.

Lemma pick_none_iff p columns :
  fold_left (pick p) columns None = None ↔ ∀ c, c ∈ columns → p c = false.
Proof.
  split.
  - intros Hnone c Hin. destruct (p c) eqn:Hc; [|done].
    destruct (pick_resolved p columns c Hin Hc) as (c' & Hsome & _). congruence.
  - intros Hall. apply pick_none_after. by apply Forall_forall.
Qed.

End ResolverMore.

(** X4. Appending columns to the frame: for each role, a column
    selected among the appended ones replaces whatever was selected
    before, and the earlier selection stays when none of the appended
    columns qualifies.  A role is left unresolved exactly when no
    column of the frame qualifies for it. *)
Theorem auto_map_app `{Fuzz} (columns1 columns2 : list string) :
  let earlier := auto_map columns1 in
  let later := auto_map columns2 in
  let both := auto_map (columns1 ++ columns2) in
  desc_col both = (if desc_col later is Some c then Some c else desc_col earlier)
  ∧ total_col both = (if total_col later is Some c then Some c else total_col earlier)
  ∧ qty_col both = (if qty_col later is Some c then Some c else qty_col earlier)
  ∧ unit_col both = (if unit_col later is Some c then Some c else unit_col earlier)
  ∧ (desc_col both = None ↔ ∀ c, c ∈ columns1 ++ columns2 → is_description c = false)
  ∧ (total_col both = None ↔ ∀ c, c ∈ columns1 ++ columns2 → is_total c = false)
  ∧ (qty_col both = None ↔ ∀ c, c ∈ columns1 ++ columns2 → is_quantity c = false)
  ∧ (unit_col both = None ↔ ∀ c, c ∈ columns1 ++ columns2 → is_unit c = false).
Proof.
  cbv zeta.
  destruct (auto_map_picks columns1) as (-> & -> & -> & ->).
  destruct (auto_map_picks columns2) as (-> & -> & -> & ->).
  destruct (auto_map_picks (columns1 ++ columns2)) as (-> & -> & -> & ->).
  split_and!; try apply pick_app; apply pick_none_iff.
Qed.

(** ** Header clean-up *)

Section CleanColumn.

Implicit Types (s : string) (c : ascii).

Lemma lower_ascii_not_upper c : is_upper (PyStr.lower_ascii c) = false.
Proof. by destruct c as [[] [] [] [] [] [] [] []]. Qed.

Lemma lower_ascii_blank c : PyStr.is_blank (PyStr.lower_ascii c) = PyStr.is_blank c.
Proof. by destruct c as [[] [] [] [] [] [] [] []]. Qed.

Lemma has_char_lower_upper s : PyStr.has_char is_upper (PyStr.lower s) = false.
Proof.
  induction s as [|c s IH]; simpl; [done|].
  by rewrite lower_ascii_not_upper, IH.
Qed.

Lemma has_char_remove_other f g s :
  PyStr.has_char f s = false → PyStr.has_char f (PyStr.remove_chars g s) = false.
Proof.
  induction s as [|c s IH]; simpl; [done|].
  intros [Hc Hs]%orb_false_iff. destruct (g c); simpl; [by apply IH|].
  by rewrite Hc, IH.
Qed.

Lemma has_char_remove_same f s :
  PyStr.has_char f (PyStr.remove_chars f s) = false.
Proof.
  induction s as [|c s IH]; simpl; [done|].
  destruct (f c) eqn:Hc; simpl; [done|]. by rewrite Hc.
Qed.

Lemma has_char_replace_gone a b s :
  a ≠ b → PyStr.has_char (Ascii.eqb a) (PyStr.replace_char a b s) = false.
Proof.
  intros Hab. induction s as [|c s IH]; simpl; [done|].
  rewrite IH, orb_false_r. apply Ascii.eqb_neq.
  destruct (Ascii.eqb_spec c a); congruence.
Qed.

Lemma has_char_replace_keep f a b s :
  f b = false → PyStr.has_char f s = false →
  PyStr.has_char f (PyStr.replace_char a b s) = false.
Proof.
  intros Hb. induction s as [|c s IH]; simpl; [done|].
  intros [Hc Hs]%orb_false_iff. rewrite (IH Hs), orb_false_r.
  by destruct (Ascii.eqb c a).
Qed.

Lemma lstrip_lower s : PyStr.lstrip (PyStr.lower s) = PyStr.lower (PyStr.lstrip s).
Proof.
  induction s as [|c s IH]; simpl; [done|].
  rewrite lower_ascii_blank. by destruct (PyStr.is_blank c).
Qed.

Lemma rstrip_lower s : PyStr.rstrip (PyStr.lower s) = PyStr.lower (PyStr.rstrip s).
Proof.
  induction s as [|c s IH]; simpl; [done|].
  rewrite IH, lower_ascii_blank.
  destruct (PyStr.rstrip s); simpl; [by destruct (PyStr.is_blank c) | done].
Qed.

Lemma strip_lower s : PyStr.strip (PyStr.lower s) = PyStr.lower (PyStr.strip s).
Proof. unfold PyStr.strip. by rewrite lstrip_lower, rstrip_lower. Qed.

Lemma rstrip_idemp s : PyStr.rstrip (PyStr.rstrip s) = PyStr.rstrip s.
Proof.
  induction s as [|c s IH]; simpl; [done|].
  destruct (PyStr.rstrip s) as [|a r] eqn:Hr.
  - destruct (PyStr.is_blank c) eqn:Hc; simpl; [done|]. by rewrite Hc.
  - simpl in *. by rewrite IH.
Qed.

Lemma lstrip_head s :
  PyStr.lstrip s = EmptyString ∨
  ∃ c rest, PyStr.lstrip s = String c rest ∧ PyStr.is_blank c = false.
Proof.
  induction s as [|c s IH]; simpl; [by left|].
  destruct (PyStr.is_blank c) eqn:Hc; [done|]. right. by exists c, s.
Qed.

Lemma lstrip_rstrip_head c s :
  PyStr.is_blank c = false →
  PyStr.lstrip (PyStr.rstrip (String c s)) = PyStr.rstrip (String c s).
Proof.
  intros Hc. simpl. destruct (PyStr.rstrip s); rewrite ?Hc; simpl; by rewrite Hc.
Qed.

Lemma strip_idemp s : PyStr.strip (PyStr.strip s) = PyStr.strip s.
Proof.
  unfold PyStr.strip.
  destruct (lstrip_head s) as [-> | (c & rest & -> & Hc)]; [done|].
  by rewrite lstrip_rstrip_head, rstrip_idemp.
Qed.

End CleanColumn.

(** X5. A cleaned header holds no space, no dot and no upper-case
    ASCII letter, so the tokens and canonical names of the resolver,
    all lower-case, are matched whatever the case of the header in the
    document.  Headers that differ only in case or in surrounding
    blanks clean to the same column name. *)
Theorem clean_column_normal_form (name : string) :
  PyStr.has_char (Ascii.eqb " ") (clean_column name) = false
  ∧ PyStr.has_char (Ascii.eqb ".") (clean_column name) = false
  ∧ PyStr.has_char is_upper (clean_column name) = false
  ∧ clean_column (PyStr.lower name) = clean_column name
  ∧ clean_column (PyStr.strip name) = clean_column name.
Proof.
  unfold clean_column. split_and!.
  - by apply has_char_remove_other, has_char_replace_gone.
  - apply has_char_remove_same.
  - apply has_char_remove_other, has_char_replace_keep; [done|].
    apply has_char_lower_upper.
  - by rewrite strip_lower, lower_idemp.
  - by rewrite strip_idemp.
Qed.

(** ** Categoriser: when a row stays in "Other" *)

Lemma scan_categories_hit table d current :
  Forall (fun entry => ¬ keyword_occurs entry.2 d) table
  ∨ ∃ cat kws, (cat, kws) ∈ table ∧ keyword_occurs kws d
               ∧ scan_categories table d current = cat.
Proof.
  induction table as [|[cat kws] table IH]; simpl; [by left|].
  destruct (any_keyword kws d) eqn:Hkws.
  - right. exists cat, kws. split; [left|]. by rewrite <-any_keyword_spec.
  - destruct IH as [IH | (cat' & kws' & Hin & Hocc & Hscan)].
    + left. constructor; [|done]. by apply any_keyword_false.
    + right. exists cat', kws'. split; [by right | done].
Qed.

Lemma scan_categories_cons cat kws rest d current :
  scan_categories ((cat, kws) :: rest) d current =
    if any_keyword kws d then cat else scan_categories rest d current.
Proof. done. Qed.

Lemma keyword_occurs_nil d : ¬ keyword_occurs [] d.
Proof. intros (kw & Hin & _). by apply elem_of_nil in Hin. Qed.

Lemma category_keywords_other kws d :
  ("Other", kws) ∈ category_keywords → ¬ keyword_occurs kws d.
Proof.
  unfold category_keywords. intros Hin.
  repeat (apply elem_of_cons in Hin as [Hin|Hin]; [try discriminate Hin|]).
  - injection Hin as ->. apply keyword_occurs_nil.
  - by apply elem_of_nil in Hin.
Qed.

Lemma lower_app (s1 s2 : string) :
  PyStr.lower (s1 +:+ s2) = PyStr.lower s1 +:+ PyStr.lower s2.
Proof.
  induction s1 as [|c s1 IH]; [done|].
  rewrite append_cons. simpl. by rewrite IH, append_cons.
Qed.

Lemma append_assoc (s1 s2 s3 : string) :
  (s1 +:+ s2) +:+ s3 = s1 +:+ (s2 +:+ s3).
Proof.
  induction s1 as [|c s1 IH]; [done|].
  by rewrite !append_cons, IH.
Qed.

Lemma is_substring_extend kw s before after :
  is_substring kw s → is_substring kw (before +:+ s +:+ after).
Proof.
  intros (b & a & ->). exists (before +:+ b), (a +:+ after).
  by rewrite !append_assoc.
Qed.

(** X6. A row stays in "Other" exactly when no keyword of any
    category occurs in its lower-cased description.  Keywords are
    looked for as substrings, so a description that is categorised
    stays categorised when text is put before or after it. *)
Theorem categorize_other_iff (desc : string) :
  (categorize desc = "Other" ↔
     ∀ cat kws, (cat, kws) ∈ category_keywords → ¬ keyword_occurs kws (PyStr.lower desc))
  ∧ (∀ before after,
       categorize desc ≠ "Other" → categorize (before +:+ desc +:+ after) ≠ "Other").
Proof.
  assert (∀ d, categorize d = "Other" ↔
            ∀ cat kws, (cat, kws) ∈ category_keywords →
                       ¬ keyword_occurs kws (PyStr.lower d)) as Hiff.
  { intros d. unfold categorize. split.
    - intros Hother cat kws Hin.
      destruct (scan_categories_hit category_keywords (PyStr.lower d) "Other")
        as [Hnone | (cat' & kws' & Hin' & Hocc & Hscan)].
      + rewrite Forall_forall in Hnone. apply (Hnone (cat, kws) Hin).
      + rewrite Hother in Hscan. subst cat'.
        by apply category_keywords_other in Hocc.
    - intros Hnone. apply scan_categories_none, Forall_forall.
      intros [cat kws] Hin. by apply (Hnone cat kws). }
  split; [apply Hiff|].
  intros before after Hcat Hother. apply Hcat, Hiff.
  intros cat kws Hin (kw & Hkw & Hsub).
  apply (proj1 (Hiff _) Hother cat kws Hin).
  exists kw. split; [done|].
  rewrite !lower_app. by apply is_substring_extend.
Qed.

(** X7. The keyword "fixture" is listed for Electrical and for
    Plumbing, and Electrical is tested first: a description in which
    "fixture" occurs is never given to Plumbing on that account.  It
    goes to Roofing when a roofing keyword occurs in it and to
    Electrical otherwise. *)
Theorem fixture_is_electrical (desc : string) :
  is_substring "fixture" (PyStr.lower desc) →
  categorize desc =
    (if any_keyword ["shingle"; "ridge"; "flashing"; "felt"; "ice water"] (PyStr.lower desc)
     then "Roofing" else "Electrical")
  ∧ categorize desc ≠ "Plumbing".
Proof.
  intros Hfix.
  assert (any_keyword ["wiring"; "outlet"; "panel"; "fixture"] (PyStr.lower desc) = true)
    as Helec.
  { apply any_keyword_spec. exists "fixture". split; [set_solver | done]. }
  unfold categorize, category_keywords.
  rewrite scan_categories_cons.
  destruct (any_keyword ["shingle"; "ridge"; "flashing"; "felt"; "ice water"]
              (PyStr.lower desc)); [done|].
  by rewrite scan_categories_cons, Helec.
Qed.

(** A plumbing fixture. *)
Lemma fixture_is_electrical_witness :
  categorize "Replace bathroom sink fixture" = "Electrical".
Proof.
  refine (proj1 (fixture_is_electrical "Replace bathroom sink fixture" _)).
  by exists "replace bathroom sink ", EmptyString.
Defined.

(** ** Row normaliser: which rows come out *)

Section NormaliserMore.

Context `{Pandas}.

Lemma omap_cons_eq {A B} (f : A → option B) (x : A) (l : list A) :
  omap f (x :: l) =
    match f x with
    | Some y => y :: omap f l
    | None => omap f l
    end.
Proof. done. Qed.

Lemma normalize_omap rows : normalize rows = omap normalize_row rows.
Proof.
  induction rows as [|row rows IH]; [done|].
  rewrite normalize_cons, IH. unfold normalize_row at 2.
  destruct row as [[d|] [t|]]; simpl; try done.
  unfold normalize, convert_totals, dropna; simpl.
  by destruct (clean_total t).
Qed.

Lemma strip_currency_app s1 s2 :
  strip_currency (s1 +:+ s2) = strip_currency s1 +:+ strip_currency s2.
Proof.
  unfold strip_currency. induction s1 as [|c s1 IH]; [done|].
  rewrite append_cons. simpl. destruct (is_currency_mark c); [done|].
  by rewrite append_cons, IH.
Qed.

Lemma strip_currency_idemp s : strip_currency (strip_currency s) = strip_currency s.
Proof.
  unfold strip_currency. apply remove_chars_id.
  induction s as [|c s IH]; simpl; [done|].
  destruct (is_currency_mark c) eqn:Hc; simpl; [done|]. by rewrite Hc.
Qed.

End NormaliserMore.

(** X8. The normaliser invents nothing and loses nothing it could
    read: a line item is in its result exactly when some raw row has
    that description, a total cell present, and a total cell that
    parses to the item's total.  The result is never longer than the
    input, and the descriptions come out in the order of the raw
    rows. *)
Theorem normalize_sound_complete `{Pandas} (rows : list raw_row) (r : clean_row) :
  (r ∈ normalize rows ↔
     ∃ row t, row ∈ rows ∧ raw_description row = Some (description r)
              ∧ raw_total row = Some t ∧ clean_total t = Some (total r))
  ∧ length (normalize rows) ≤ length rows
  ∧ (fun r => description r) <$> normalize rows `sublist_of` omap raw_description rows.
Proof.
  rewrite normalize_omap. split_and!.
  - rewrite list_elem_of_omap. split.
    + intros (row & Hin & Hrow). unfold normalize_row in Hrow.
      destruct (raw_description row) as [d|] eqn:Hd; [|done].
      destruct (raw_total row) as [t|] eqn:Ht; [|done].
      destruct (clean_total t) as [x|] eqn:Hx; [|done].
      injection Hrow as <-. by exists row, t.
    + intros (row & t & Hin & Hd & Ht & Hx). exists row. split; [done|].
      unfold normalize_row. rewrite Hd, Ht, Hx. by destruct r.
  - induction rows as [|row rows IH]; [done|].
    rewrite omap_cons_eq. destruct (normalize_row row); simpl; lia.
  - induction rows as [|row rows IH]; [constructor|].
    rewrite !omap_cons_eq. unfold normalize_row at 1.
    destruct (raw_description row) as [d|]; [|done].
    destruct (raw_total row) as [t|]; [|by constructor].
    destruct (clean_total t); [rewrite fmap_cons|]; by constructor.
Qed.

(** X9. The "$" and "," are dropped wherever they stand in the total
    cell: a cell reads the same with one of them inserted at any
    place, and stripping a cell that has been stripped changes
    nothing.  The comma is therefore never a decimal separator: under
    decimal numerals "12,50" is read as 1250. *)
Theorem currency_marks_are_ignored `{Pandas} (d s1 s2 : string) :
  clean_total (Str (s1 +:+ "$" +:+ s2)) = clean_total (Str (s1 +:+ s2))
  ∧ clean_total (Str (s1 +:+ "," +:+ s2)) = clean_total (Str (s1 +:+ s2))
  ∧ strip_currency (strip_currency s1) = strip_currency s1
  ∧ normalize [text_row d (strip_currency s1)] = normalize [text_row d s1]
  ∧ @normalize decimal_pandas [text_row d "12,50"] = [{| description := d; total := 1250 |}].
Proof.
  unfold clean_total, astype_str. split_and!.
  - by rewrite !strip_currency_app.
  - by rewrite !strip_currency_app.
  - apply strip_currency_idemp.
  - by rewrite !normalize_text_row, strip_currency_idemp.
  - by rewrite normalize_text_row.
Qed.

(** ** The frame of the report *)

Section PipelineFacts.

Context `{Pandas}.

Lemma delegate_rows_back rules (tasks : list task) :
  (fun it : line_item => item_task it) <$> delegate rules tasks = tasks.
Proof.
  induction tasks as [|t tasks IH]; [done|].
  unfold delegate in *. rewrite !fmap_cons. by rewrite IH.
Qed.

Lemma categorize_rows_back (rows : list clean_row) :
  (fun t : task => task_row t) <$> categorize_rows rows = rows.
Proof.
  induction rows as [|r rows IH]; [done|].
  unfold categorize_rows in *. rewrite !fmap_cons. by rewrite IH.
Qed.

Lemma pipeline_rows rules rows :
  (fun it : line_item => task_row (item_task it)) <$> pipeline rules rows = normalize rows.
Proof.
  unfold pipeline.
  rewrite (list_fmap_compose (fun it : line_item => item_task it)
             (fun t : task => task_row t)).
  by rewrite delegate_rows_back, categorize_rows_back.
Qed.

Lemma pipeline_totals rules rows :
  (fun it : line_item => total it) <$> pipeline rules rows =
    (fun r : clean_row => total r) <$> normalize rows.
Proof.
  rewrite <-(pipeline_rows rules rows), <-list_fmap_compose. done.
Qed.

Lemma delegate_categorized_count rules (tasks : list task) :
  categorized_count (delegate rules tasks) =
    length (filter (fun t : task => category t ≠ "Other") tasks).
Proof.
  unfold categorized_count, delegate.
  induction tasks as [|t tasks IH]; [done|].
  rewrite fmap_cons, !filter_cons. simpl.
  destruct (decide (category t ≠ "Other")); simpl; by rewrite IH.
Qed.

Lemma pipeline_length rules rows :
  length (pipeline rules rows) = length (normalize rows).
Proof.
  unfold pipeline, delegate, categorize_rows. by rewrite !length_fmap.
Qed.

End PipelineFacts.

Lemma categorized_percentage_none (items : list line_item) :
  categorized_percentage items = None ↔ items = [].
Proof.
  unfold categorized_percentage, py_truediv. destruct items as [|it items].
  - done.
  - rewrite decide_False by (simpl; lia). done.
Qed.

(** X10. Categorising and delegating keep the rows of the normaliser
    as they are, in order: the report has one row per normalised row,
    with its description and total, and each row carries the category
    of its own description.  The rules only fill [assigned_to]: the
    grand total and the categorised percentage are the same under any
    two rule sets. *)
Theorem pipeline_keeps_rows `{Pandas} (rules rules' : gmap string string)
    (rows : list raw_row) :
  (fun it : line_item => task_row (item_task it)) <$> pipeline rules rows = normalize rows
  ∧ Forall (fun it : line_item => category it = categorize (description it))
      (pipeline rules rows)
  ∧ length (pipeline rules rows) ≤ length rows
  ∧ grand_total (pipeline rules rows) = grand_total (pipeline rules' rows)
  ∧ categorized_percentage (pipeline rules rows) =
      categorized_percentage (pipeline rules' rows).
Proof.
  split_and!.
  - apply pipeline_rows.
  - unfold pipeline, delegate, categorize_rows.
    rewrite <-list_fmap_compose. by apply Forall_fmap, Forall_true.
  - rewrite pipeline_length, normalize_omap.
    induction rows as [|row rows IH]; [done|].
    rewrite omap_cons_eq. destruct (normalize_row row); simpl; lia.
  - unfold grand_total. by rewrite !pipeline_totals.
  - unfold categorized_percentage.
    rewrite !pipeline_length. unfold pipeline.
    by rewrite !delegate_categorized_count.
Qed.

(** X11. The "Categorized %" metric raises exactly on the empty frame,
    and the frame of a run is empty exactly when every raw row is
    dropped by the normaliser: a missing cell or an unreadable total
    in each of them. *)
Theorem percentage_faults_iff_no_row `{Pandas} (rules : gmap string string)
    (rows : list raw_row) (items : list line_item) :
  (categorized_percentage items = None ↔ items = [])
  ∧ (categorized_percentage (pipeline rules rows) = None ↔
       ∀ row, row ∈ rows → normalize_row row = None)
  ∧ (∀ row, normalize_row row = None ↔
       raw_description row = None ∨ raw_total row = None
       ∨ ∃ t, raw_total row = Some t ∧ clean_total t = None).
Proof.
  split_and!.
  - apply categorized_percentage_none.
  - rewrite categorized_percentage_none.
    rewrite <-length_zero_iff_nil, pipeline_length, length_zero_iff_nil, normalize_omap.
    induction rows as [|row rows IH]; [by split; [intros _ ? ?%elem_of_nil|]|].
    rewrite omap_cons_eq. destruct (normalize_row row) as [r|] eqn:Hrow.
    + split; [done|]. intros Hall. specialize (Hall row (list_elem_of_here _ _)).
      congruence.
    + rewrite IH. split.
      * intros Hall row' [->|Hin]%elem_of_cons; [done | by apply Hall].
      * intros Hall row' Hin. apply Hall. by right.
  - intros row. unfold normalize_row.
    destruct (raw_description row) as [d|]; [|by split; [left|]].
    destruct (raw_total row) as [t|]; [|by split; [right; left|]].
    destruct (clean_total t) as [x|] eqn:Hx.
    + split; [done|]. intros [?|[?|(t' & [= <-] & Ht')]]; congruence.
    + split; [|done]. intros _. right; right. by exists t.
Qed.

(** ** Range of the categorised percentage *)

Section Percentage.

Local Open Scope Q_scope.

Lemma ratio_bounds (k n : Z) :
  (0 <= k <= n)%Z → (0 < n)%Z →
  0 <= inject_Z k / inject_Z n * 100 <= 100.
Proof.
  intros [Hk Hkn] Hn.
  assert (0 < inject_Z n) as Hn'.
  { change (inject_Z 0 < inject_Z n). by rewrite <-Zlt_Qlt. }
  assert (0 <= inject_Z k) as Hk'.
  { change (inject_Z 0 <= inject_Z k). by rewrite <-Zle_Qle. }
  assert (inject_Z k <= inject_Z n) as Hkn' by (by rewrite <-Zle_Qle).
  assert (0 <= inject_Z k / inject_Z n) as Hlo.
  { apply Qle_shift_div_l; [done|]. lra. }
  assert (inject_Z k / inject_Z n <= 1) as Hhi.
  { apply Qle_shift_div_r; [done|]. lra. }
  split; lra.
Qed.

Lemma round_half_even_range (x : Q) (lo hi : Z) :
  inject_Z lo <= x <= inject_Z hi →
  (lo <= round_half_even x <= hi)%Z.
Proof.
  intros [Hlo Hhi].
  pose proof (round_half_even_nearest x) as Hnear.
  apply Qabs_Qle_condition in Hnear as [Hn1 Hn2].
  assert (inject_Z (lo + -1) < inject_Z (round_half_even x)) as H1.
  { rewrite (inject_Z_plus lo (-1)). change (inject_Z (-1)) with (-1). lra. }
  assert (inject_Z (round_half_even x) < inject_Z (hi + 1)) as H2.
  { rewrite inject_Z_plus. change (inject_Z 1) with 1. lra. }
  rewrite <-Zlt_Qlt in H1, H2. lia.
Qed.

End Percentage.

(** X12. When the "Categorized %" metric has a value, it is an integer
    between 0 and 100; it is 0 when every row is in "Other" and 100
    when no row is. *)
Theorem percentage_in_range (items : list line_item) (shown : Z) :
  categorized_percentage items = Some shown →
  (0 ≤ shown ≤ 100)%Z
  ∧ (categorized_count items = 0 → shown = 0%Z)
  ∧ (categorized_count items = length items → shown = 100%Z).
Proof.
  unfold categorized_percentage, py_truediv. intros Hshown.
  destruct items as [|it items]; [done|].
  rewrite decide_False in Hshown by (simpl; lia).
  injection Hshown as <-.
  change (length (it :: items)) with (S (length items)).
  assert (categorized_count (it :: items) ≤ S (length items)) as Hcount.
  { apply (length_filter (fun it : line_item => category it ≠ "Other") (it :: items)). }
  remember (categorized_count (it :: items)) as count eqn:Ecount. clear Ecount.
  remember (Z.of_nat count) as k eqn:Ek.
  remember (Z.of_nat (S (length items))) as n eqn:En.
  assert (0 ≤ k ≤ n)%Z as Hk by lia.
  assert (0 < n)%Z as Hn by lia.
  split; [|split].
  - apply (round_half_even_range _ 0 100). by apply ratio_bounds.
  - intros Hzero.
    assert (k = 0%Z) as -> by lia.
    enough (0 ≤ round_half_even (inject_Z 0 / inject_Z n * 100) ≤ 0)%Z by lia.
    apply round_half_even_range. change (inject_Z 0) with 0%Q.
    unfold Qdiv. split; lra.
  - intros Hall.
    assert (k = n) as -> by lia.
    enough (100 ≤ round_half_even (inject_Z n / inject_Z n * 100) ≤ 100)%Z by lia.
    apply round_half_even_range. change (inject_Z 100) with 100%Q.
    assert (inject_Z n / inject_Z n == 1)%Q as ->.
    { apply Qmult_inv_r. rewrite (Zlt_Qlt 0 n) in Hn.
      change (inject_Z 0) with 0%Q in Hn.
      intros Heq. rewrite Heq in Hn. by apply Qlt_irrefl in Hn. }
    split; lra.
Qed.

(** Two rows out of three are categorised: 67 is shown. *)
Lemma percentage_in_range_witness : (0 ≤ 67 ≤ 100)%Z.
Proof.
  refine (proj1 (percentage_in_range
                   [item "Install asphalt shingle roof" 500 "Roofing" "A";
                    item "Patch drywall ceiling" 200 "Drywall/Painting" "Unassigned";
                    item "Generic cleanup" 100 "Other" "Unassigned"] 67 _)).
  by vm_compute.
Defined.

(** ** Delegation and payments together *)

Lemma delegate_row_ext (rules1 rules2 : gmap string string) (t : task) :
  default "Unassigned" (rules1 !! category t) = default "Unassigned" (rules2 !! category t) →
  delegate_row rules1 t = delegate_row rules2 t.
Proof.
  unfold delegate_row. intros Heq. f_equal.
  by destruct (rules1 !! category t), (rules2 !! category t).
Qed.




(** X13. A rule that gives a category to "Unassigned" has the effect
    of no rule for that category.  With no rule at all every row is
    unassigned: the assigned total is 0 and the unassigned total is
    the grand total. *)
Theorem unassigned_rule_is_no_rule (rules : gmap string string) (cat : string)
    (tasks : list task) :
  delegate (<[cat := "Unassigned"]> rules) tasks = delegate (delete cat rules) tasks
  ∧ Forall (fun it : line_item => assigned_to it = "Unassigned") (delegate ∅ tasks)
  ∧ assigned_total (delegate ∅ tasks) = 0%Q
  ∧ unassigned_total (delegate ∅ tasks) = grand_total (delegate ∅ tasks).
Proof.
  assert (Forall (fun it : line_item => assigned_to it = "Unassigned") (delegate ∅ tasks))
    as Hall.
  { unfold delegate. apply Forall_fmap, Forall_true. intros t.
    unfold delegate_row; simpl. by rewrite lookup_empty. }
  split_and!; [|done| |].
  - unfold delegate. apply list_fmap_ext. intros i t _.
    apply delegate_row_ext.
    destruct (decide (cat = category t)) as [->|Hne].
    + by rewrite lookup_insert_eq, lookup_delete_eq.
    + by rewrite lookup_insert_ne, lookup_delete_ne.
  - apply total_where_none. rewrite Forall_forall in Hall.
    intros it Hin Hne. by apply Hne, Hall.
  - unfold unassigned_total, total_where, grand_total. f_equal. f_equal.
    induction Hall as [|it items Hit _ IH]; [done|].
    by rewrite filter_cons_True, IH.
Qed.



(** ** The contractors' totals and the assigned total *)

Section Cover.

Local Open Scope Q_scope.








End Cover.





(** ** Sidebar configuration *)

Section Sidebar.

Context {V W : Type} (g : V → W).



End Sidebar.


(** ** A contractor named like the sentinel *)

(** X18. The name of a contractor is free text, and "Unassigned" is
    also the mark of the rows no rule gives away.  A contractor
    entered under that name is paid the payout fraction of the
    unassigned total, although those rows count as unassigned in the
    metrics. *)
Theorem contractor_named_unassigned (contractors : gmap string Q)
    (items : list line_item) (pct : Q) :
  contractors !! "Unassigned" = Some pct →
  payments contractors items !! "Unassigned" = Some (unassigned_total items * pct)%Q
  ∧ ∀ tasks, payments contractors (delegate ∅ tasks) !! "Unassigned"
             = Some (grand_total (delegate ∅ tasks) * pct)%Q.
Proof.
  intros Hpct.
  assert (∀ frame, payments contractors frame !! "Unassigned"
                   = Some (unassigned_total frame * pct)%Q) as Hpaid.
  { intros frame. by rewrite payments_lookup, Hpct. }
  split; [apply Hpaid|]. intros tasks. rewrite Hpaid. do 2 f_equal.
  unfold unassigned_total, total_where, grand_total. do 2 f_equal.
  unfold delegate. induction tasks as [|t tasks IH]; [done|].
  rewrite fmap_cons, filter_cons_True, IH; [done|].
  unfold delegate_row; simpl. by rewrite lookup_empty.
Qed.

(** A contractor entered as "Unassigned" at 85 percent, and one row
    that no rule gives away. *)
Lemma contractor_named_unassigned_witness :
  payments (build_contractors [("Unassigned", 85%Q)])
    [item "Generic cleanup" 100 "Other" "Unassigned"] !! "Unassigned"
  = Some (unassigned_total [item "Generic cleanup" 100 "Other" "Unassigned"] * (85 / 100))%Q.
Proof.
  refine (proj1 (contractor_named_unassigned _ _ (85 / 100)%Q _)).
  by vm_compute.
Defined.

(** ** Rows are processed one by one *)

Section RowByRow.

Local Open Scope Q_scope.



End RowByRow.

